(** * py2pddl: the [init] scaffolding command (src/py2pddl/init.py)

    A shallow embedding of [init(filename)]: the existence check of the
    destination, the four [input] prompts and their normalisation, the
    rendering of the skeleton text and the single write of the file.

    Python strings are modelled as [list ascii] (the model covers ASCII
    text; the type tokens are also modelled over any Unicode character
    database); the interactive and file-system effects of the function are
    modelled by a small state-and-exception monad over a [world]. *)

From Stdlib Require Import Ascii String List Bool Arith NArith Lia.
Import ListNotations.
Open Scope list_scope.

(** ** Characters and Python string methods (ASCII) *)

Abbreviation txt := (list ascii).

Definition s2l (s : string) : txt := list_ascii_of_string s.

Definition NL : ascii := "010"%char.
Definition SP : ascii := " "%char.
Definition DQ : ascii := "034"%char.
Definition TQ : txt := [DQ; DQ; DQ].

(** [str.isspace] on ASCII: \t \n \v \f \r, the separators \x1c-\x1f
    and the space. *)
Definition is_space (c : ascii) : bool :=
  let n := nat_of_ascii c in
  ((9 <=? n) && (n <=? 13)) || ((28 <=? n) && (n <=? 32)).

Definition is_upper (c : ascii) : bool :=
  let n := nat_of_ascii c in (65 <=? n) && (n <=? 90).

Definition is_lower (c : ascii) : bool :=
  let n := nat_of_ascii c in (97 <=? n) && (n <=? 122).

(** On ASCII the cased characters of Python are the letters. *)
Definition is_cased (c : ascii) : bool := is_upper c || is_lower c.

Definition to_upper (c : ascii) : ascii :=
  if is_lower c then ascii_of_nat (nat_of_ascii c - 32) else c.

Definition to_lower (c : ascii) : ascii :=
  if is_upper c then ascii_of_nat (nat_of_ascii c + 32) else c.

(** [s.lstrip()] and [s.rstrip()] with no argument. *)
Fixpoint lstrip (s : txt) : txt :=
  match s with
  | [] => []
  | c :: r => if is_space c then lstrip r else s
  end.

Definition rstrip (s : txt) : txt := rev (lstrip (rev s)).

(** [s.lstrip().rstrip()], as the source writes it. *)
Definition strip (s : txt) : txt := rstrip (lstrip s).

(** [s.split(sep)] with an explicit separator: empty fields are kept, so
    the empty string splits to a list holding one empty string, and a
    doubled separator yields an empty field. *)
Fixpoint split_on (sep : ascii) (s : txt) : list txt :=
  match s with
  | [] => [[]]
  | c :: r =>
      if Ascii.eqb c sep then [] :: split_on sep r
      else match split_on sep r with
           | w :: ws => (c :: w) :: ws
           | [] => [[c]]
           end
  end.

(** [s.title()]: CPython's [do_title] lowercases a character that follows
    a cased one and title-cases (uppercases, on ASCII) every other one. *)
Fixpoint title_aux (previous_is_cased : bool) (s : txt) : txt :=
  match s with
  | [] => []
  | c :: r =>
      (if previous_is_cased then to_lower c else to_upper c)
        :: title_aux (is_cased c) r
  end.

Definition title (s : txt) : txt := title_aux false s.

(** [s.lower()]. *)
Definition lower (s : txt) : txt := map to_lower s.

(** [sep.join(xs)]. *)
Fixpoint py_join (sep : txt) (xs : list txt) : txt :=
  match xs with
  | [] => []
  | [x] => x
  | x :: r => x ++ sep ++ py_join sep r
  end.

(** ** Exceptions and results *)

Inductive exn : Type :=
| FileExistsError   (* raised by [init] itself, line 11 *)
| IndexError        (* [class_name[0]] on the empty string *)
| EOFError          (* [input] when standard input is exhausted *)
| OSError.          (* failure of the storage layer in [open]/[write] *)

Inductive result (A : Type) : Type :=
| Ok (a : A)
| Raised (e : exn).
Arguments Ok {A} a.
Arguments Raised {A} e.

(** [s[0]]: raises [IndexError] on the empty string. *)
Definition py_getitem0 (s : txt) : result ascii :=
  match s with
  | [] => Raised IndexError
  | c :: _ => Ok c
  end.

(** [s[1:]]: never raises. *)
Definition py_slice1 (s : txt) : txt := tl s.

(** ** Normalisation of the four answers (init.py, lines 13-31) *)

(** Name: [class_name[0].upper() + class_name[1:]] on the stripped answer. *)
Definition name_of (raw : txt) : result txt :=
  let class_name := strip raw in
  match py_getitem0 class_name with
  | Raised e => Raised e
  | Ok c0 => Ok (to_upper c0 :: py_slice1 class_name)
  end.

(** Types: [[typ.title() for typ in user_types.split(" ")]]. *)
Definition types_of (raw : txt) : list txt :=
  map title (split_on SP (strip raw)).

(** Predicates: [[pred.lower() for pred in user_predicates.split(" ")]]. *)
Definition predicates_of (raw : txt) : list txt :=
  map lower (split_on SP (strip raw)).

(** Actions: [[action.lower() for action in user_actions.split(" ")]]. *)
Definition actions_of (raw : txt) : list txt :=
  map lower (split_on SP (strip raw)).

(** ** Type tokens over Unicode (init.py, lines 19-21)

    Python's [str.strip], [str.title] and the comparison with [" "] read
    the Unicode character database. The type tokens are modelled once more
    over an arbitrary character type whose database is a parameter, so that
    what is proved of them holds for every character an answer can hold,
    not only for ASCII. [types_of] above is the instance of this model at
    the ASCII part of the database ([ascii_db] below). *)
Record unicode_db : Type := {
  uchar : Type;
  (* [c == " "] *)
  is_sp : uchar -> bool;
  (* [Py_UNICODE_ISSPACE], the test of [lstrip] and [rstrip] *)
  isspace : uchar -> bool;
  (* [_PyUnicode_IsCased] *)
  is_cased_u : uchar -> bool;
  (* [_PyUnicode_ToTitleFull]: the full titlecase mapping, one to three
     characters *)
  to_title_full : uchar -> list uchar;
  (* [lower_ucs4(data, i, c)]: the full lowercase mapping of the character
     [c] at index [i] of the string [data], with the final-sigma rule *)
  lower_ucs4 : list uchar -> nat -> uchar -> list uchar
}.

Section Unicode.
Variable U : unicode_db.
Local Abbreviation C := (uchar U).

Fixpoint u_lstrip (s : list C) : list C :=
  match s with
  | [] => []
  | c :: r => if isspace U c then u_lstrip r else s
  end.

(** [s.lstrip().rstrip()]. *)
Definition u_strip (s : list C) : list C :=
  rev (u_lstrip (rev (u_lstrip s))).

(** [s.split(" ")]. *)
Fixpoint u_split_sp (s : list C) : list (list C) :=
  match s with
  | [] => [[]]
  | c :: r =>
      if is_sp U c then [] :: u_split_sp r
      else match u_split_sp r with
           | w :: ws => (c :: w) :: ws
           | [] => [[c]]
           end
  end.

(** The loop of CPython's [do_title] over the string [s]; [i] is the index
    of the first character of [r] in [s]. *)
Fixpoint do_title (s : list C) (previous_is_cased : bool) (i : nat)
  (r : list C) : list C :=
  match r with
  | [] => []
  | c :: r' =>
      (if previous_is_cased then lower_ucs4 U s i c else to_title_full U c)
        ++ do_title s (is_cased_u U c) (S i) r'
  end.

(** [s.title()]. *)
Definition u_title (s : list C) : list C := do_title s false 0 s.

(** [[typ.title() for typ in user_types.split(" ")]] on the stripped
    answer. *)
Definition u_types_of (raw : list C) : list (list C) :=
  map u_title (u_split_sp (u_strip raw)).

End Unicode.

(** ** Rendering (init.py, lines 33-96) *)

(** A line of text followed by its newline. *)
Definition ln (l : txt) : txt := l ++ [NL].

Definition domain_header (class_name : txt) : txt :=
  ln (s2l "from py2pddl import Domain, create_type, create_objs") ++
  ln (s2l "from py2pddl import predicate, action, goal, init") ++
  ln [] ++ ln [] ++
  ln (s2l "class " ++ class_name ++ s2l "Domain(Domain):").

Definition type_line (typ : txt) : txt :=
  s2l "    " ++ typ ++ s2l " = create_type(" ++ [DQ] ++ typ ++ [DQ] ++ s2l ")".

Definition section_types (types : list txt) : txt :=
  concat (map (fun typ => ln (type_line typ)) types).

Definition predicate_block (predicate : txt) : txt :=
  ln (s2l "    @predicate(...)") ++
  ln (s2l "    def " ++ predicate ++ s2l "(self):") ++
  ln (s2l "        " ++ TQ ++ s2l "Complete the method signature" ++ TQ).

Definition section_predicate (predicates : list txt) : txt :=
  py_join [NL] (map predicate_block predicates).

Definition action_block (action : txt) : txt :=
  ln (s2l "    @action(...)") ++
  ln (s2l "    def " ++ action ++ s2l "(self):") ++
  ln (s2l "        " ++ TQ ++ s2l "This should be a pass" ++ TQ) ++
  ln (s2l "        precond: list = None  # to fill in") ++
  ln (s2l "        effect: list = None  # to fill in") ++
  ln (s2l "        return precond, effect").

Definition section_action (actions : list txt) : txt :=
  py_join [NL] (map action_block actions).

(** The f-string of lines 64-67 starts with a newline. *)
Definition problem_header (class_name : txt) : txt :=
  ln [] ++
  ln (s2l "class " ++ class_name ++ s2l "Problem(" ++ class_name ++
      s2l "Domain):").

Definition section_object : txt :=
  ln (s2l "    def __init__(self):") ++
  ln (s2l "        " ++ TQ ++ s2l "To fill in" ++ TQ).

Definition section_init : txt :=
  ln (s2l "    @init") ++
  ln (s2l "    def init(self) -> list:") ++
  ln (s2l "        # To fill in") ++
  ln (s2l "        # Return type is a list") ++
  ln (s2l "        return None").

Definition section_goal : txt :=
  ln (s2l "    @goal") ++
  ln (s2l "    def goal(self) -> list:") ++
  ln (s2l "        # To fill in") ++
  ln (s2l "        # Return type is a list") ++
  ln (s2l "        return None").

Definition template (class_name : txt) (types predicates actions : list txt)
  : txt :=
  domain_header class_name ++ [NL] ++ section_types types ++ [NL] ++
  section_predicate predicates ++ [NL] ++ section_action actions ++
  [NL] ++ problem_header class_name ++ [NL] ++ section_object ++
  [NL] ++ section_init ++ [NL] ++ section_goal.

(** ** The world and the effect monad *)

(** The state [init] observes and changes: whether the destination exists,
    the remaining lines of standard input, what was printed, the content of
    the destination file, whether the storage layer lets it be opened, and
    how many characters it accepts before failing ([None]: no limit). *)
Record world : Type := {
  dest_exists : bool;
  stdin : list txt;
  stdout : list txt;
  dest : option txt;
  can_open : bool;
  room : option nat
}.

Definition M (A : Type) : Type := world -> result A * world.

Definition ret {A} (a : A) : M A := fun w => (Ok a, w).

Definition bind {A B} (m : M A) (k : A -> M B) : M B :=
  fun w => match m w with
           | (Ok a, w') => k a w'
           | (Raised e, w') => (Raised e, w')
           end.

Notation "x <- m ;; k" := (bind m (fun x => k))
  (at level 61, m at next level, right associativity).
Notation "m ;;; k" := (bind m (fun _ => k))
  (at level 61, right associativity).

Definition raise {A} (e : exn) : M A := fun w => (Raised e, w).

Definition lift {A} (r : result A) : M A := fun w => (r, w).

(** [Path(filename).exists()]. *)
Definition path_exists : M bool := fun w => (Ok (dest_exists w), w).

(** [input(prompt)]: prints the prompt, then reads one line. *)
Definition input (prompt : txt) : M txt := fun w =>
  let w1 := {| dest_exists := dest_exists w; stdin := stdin w;
               stdout := stdout w ++ [prompt]; dest := dest w;
               can_open := can_open w; room := room w |} in
  match stdin w with
  | [] => (Raised EOFError, w1)
  | l :: rest =>
      (Ok l, {| dest_exists := dest_exists w; stdin := rest;
                stdout := stdout w ++ [prompt]; dest := dest w;
                can_open := can_open w; room := room w |})
  end.

(** [print(msg)]. *)
Definition print (msg : txt) : M unit := fun w =>
  (Ok tt, {| dest_exists := dest_exists w; stdin := stdin w;
             stdout := stdout w ++ [msg]; dest := dest w;
             can_open := can_open w; room := room w |}).

(** [open(filename, "w")]: creates or truncates the destination. *)
Definition open_w : M unit := fun w =>
  if can_open w then
    (Ok tt, {| dest_exists := true; stdin := stdin w; stdout := stdout w;
               dest := Some []; can_open := can_open w; room := room w |})
  else (Raised OSError, w).

(** [f.write(text)]: the storage layer keeps at most [room] characters and
    fails past it, leaving what it kept in the file. *)
Definition write (text : txt) : M unit := fun w =>
  let put c := {| dest_exists := dest_exists w; stdin := stdin w;
                  stdout := stdout w; dest := Some c;
                  can_open := can_open w; room := room w |} in
  match room w with
  | None => (Ok tt, put text)
  | Some k =>
      if length text <=? k then (Ok tt, put text)
      else (Raised OSError, put (firstn k text))
  end.

(** ** [init(filename)] *)
Definition init (filename : txt) : M unit :=
  ex <- path_exists ;;
  if ex then raise FileExistsError else
  raw_name <- input (s2l "Name: ") ;;
  class_name <- lift (name_of raw_name) ;;
  user_types <- input (s2l "Types (separated by space): ") ;;
  user_predicates <- input (s2l "Predicates (separated by space): ") ;;
  user_actions <- input (s2l "Actions (separated by space): ") ;;
  let text := template class_name (types_of user_types)
                (predicates_of user_predicates) (actions_of user_actions) in
  open_w ;;;
  write text ;;;
  print (s2l "File written to " ++ filename).

(** ** Reference definitions and concrete inputs *)

(** Title case described character by character: the character at index
    [i] is replaced by its full titlecase mapping when it starts the token
    or follows a character that is not cased, and by its full lowercase
    mapping when it follows a cased character. *)
Definition u_title_ref (U : unicode_db) (t : list (uchar U)) : list (uchar U) :=
  concat
    (map (fun i =>
            match nth_error t i with
            | None => []
            | Some c =>
                let follows_cased :=
                  match i with
                  | 0 => false
                  | S j => match nth_error t j with
                           | Some p => is_cased_u U p
                           | None => false
                           end
                  end in
                if follows_cased then lower_ucs4 U t i c
                else to_title_full U c
            end)
         (seq 0 (length t))).

(** The ASCII part of the database: the cased characters are the letters,
    and every mapping is one character long. *)
Definition ascii_db : unicode_db := {|
  uchar := ascii;
  is_sp := fun c => Ascii.eqb c SP;
  isspace := is_space;
  is_cased_u := is_cased;
  to_title_full := fun c => [to_upper c];
  lower_ucs4 := fun _ _ c => [to_lower c]
|}.

(** A fragment of the database over code points, enough to run the
    examples U+4E2D (a letter that is not cased), U+00DF (sharp s, whose
    titlecase mapping is Ss) and the ASCII letters. *)
Definition sample_db : unicode_db := {|
  uchar := N;
  is_sp := fun n => (n =? 32)%N;
  isspace := fun n =>
    ((9 <=? n) && (n <=? 13))%N || ((28 <=? n) && (n <=? 32))%N;
  is_cased_u := fun n =>
    ((65 <=? n) && (n <=? 90))%N || ((97 <=? n) && (n <=? 122))%N ||
    (n =? 223)%N;
  to_title_full := fun n =>
    if ((97 <=? n) && (n <=? 122))%N then [(n - 32)%N]
    else if (n =? 223)%N then [83%N; 115%N] else [n];
  lower_ucs4 := fun _ _ n =>
    if ((65 <=? n) && (n <=? 90))%N then [(n + 32)%N] else [n]
|}.

(** A world where the destination is absent and the four answers are given. *)
Definition fresh_world (answers : list txt) : world :=
  {| dest_exists := false; stdin := answers; stdout := []; dest := None;
     can_open := true; room := None |}.

Definition rocket_answers : list txt :=
  [s2l "rocket"; s2l "location stage"; s2l "launched docked"; s2l "launch"].

(** The same answers, but the destination is already there. *)
Definition existing_world : world :=
  {| dest_exists := true; stdin := rocket_answers; stdout := [];
     dest := Some (s2l "pass"); can_open := true; room := None |}.

(** A name answer made of blanks only. *)
Definition blank_name_answers : list txt :=
  [s2l "   "; s2l "location"; s2l "launched"; s2l "launch"].

(** ** Layout of the output *)

(** The lines of a text, as [text.split("\n")]. *)
Definition lines (s : txt) : list txt := split_on NL s.

(** Text [a], then [k] newline characters, then text [b].  When [a] ends
    with a newline and [b] starts with another character, the lines of
    [a] and [b] are separated by exactly [k] empty lines. *)
Definition gap (a : txt) (k : nat) (b : txt) : txt := a ++ repeat NL k ++ b.

Definition ends_nl (a : txt) : Prop := exists x, a = x ++ [NL].

Definition starts_other (b : txt) : Prop :=
  exists c r, b = c :: r /\ c <> NL.

(** The problem header without the newline its f-string starts with. *)
Definition problem_class_line (class_name : txt) : txt :=
  ln (s2l "class " ++ class_name ++ s2l "Problem(" ++ class_name ++
      s2l "Domain):").

(** The object, init and goal stubs, as they follow each other. *)
Definition section_stubs : txt :=
  section_object ++ [NL] ++ section_init ++ [NL] ++ section_goal.

(** A world like [w] whose standard input holds [answers]. *)
Definition set_stdin (w : world) (answers : list txt) : world :=
  {| dest_exists := dest_exists w; stdin := answers; stdout := stdout w;
     dest := dest w; can_open := can_open w; room := room w |}.


(** ** Counting the lines of the output *)

Fixpoint txt_eqb (a b : txt) : bool :=
  match a, b with
  | [], [] => true
  | x :: a', y :: b' => Ascii.eqb x y && txt_eqb a' b'
  | _, _ => false
  end.

(** [s.endswith(suf)]. *)
Fixpoint ends_with (suf s : txt) : bool :=
  match s with
  | [] => txt_eqb suf []
  | c :: r => txt_eqb suf s || ends_with suf r
  end.

(** ["\n" in s]. *)
Definition has_nl (s : txt) : bool := existsb (Ascii.eqb NL) s.

(** The number of lines of [s] that satisfy [P]. *)
Definition count_lines (P : txt -> bool) (s : txt) : nat :=
  length (filter P (lines s)).

(** The first line of a predicate stub block. *)
Definition is_predicate_marker (l : txt) : bool :=
  txt_eqb l (s2l "    @predicate(...)").

(** The first line of an action stub block. *)
Definition is_action_marker (l : txt) : bool :=
  txt_eqb l (s2l "    @action(...)").

(** A type declaration line: the only lines of the output that end with a
    double quote and a closing parenthesis. *)
Definition is_type_decl (l : txt) : bool := ends_with [DQ; ")"%char] l.

(** The lines of one stub block, without their newlines. *)
Definition predicate_lines (p : txt) : list txt :=
  [s2l "    @predicate(...)";
   s2l "    def " ++ p ++ s2l "(self):";
   s2l "        " ++ TQ ++ s2l "Complete the method signature" ++ TQ].

Definition action_lines (a : txt) : list txt :=
  [s2l "    @action(...)";
   s2l "    def " ++ a ++ s2l "(self):";
   s2l "        " ++ TQ ++ s2l "This should be a pass" ++ TQ;
   s2l "        precond: list = None  # to fill in";
   s2l "        effect: list = None  # to fill in";
   s2l "        return precond, effect"].

(** The non-empty lines of the output, in order. *)
Definition template_lines (class_name : txt) (types predicates actions : list txt)
  : list txt :=
  [s2l "from py2pddl import Domain, create_type, create_objs";
   s2l "from py2pddl import predicate, action, goal, init";
   s2l "class " ++ class_name ++ s2l "Domain(Domain):"] ++
  map type_line types ++
  concat (map predicate_lines predicates) ++
  concat (map action_lines actions) ++
  [s2l "class " ++ class_name ++ s2l "Problem(" ++ class_name ++ s2l "Domain):";
   s2l "    def __init__(self):";
   s2l "        " ++ TQ ++ s2l "To fill in" ++ TQ;
   s2l "    @init";
   s2l "    def init(self) -> list:";
   s2l "        # To fill in";
   s2l "        # Return type is a list";
   s2l "        return None";
   s2l "    @goal";
   s2l "    def goal(self) -> list:";
   s2l "        # To fill in";
   s2l "        # Return type is a list";
   s2l "        return None"].

(** A non-empty line. *)
Definition is_nonempty (l : txt) : bool :=
  match l with [] => false | _ => true end.

(** The four prompts of [init], in the order it prints them. *)
Definition prompts : list txt :=
  [s2l "Name: "; s2l "Types (separated by space): ";
   s2l "Predicates (separated by space): ";
   s2l "Actions (separated by space): "].

(** ** Helper lemmas *)

Lemma skipn_cons_nth_error {A : Type} (t : list A) (i : nat) (c : A)
  (r : list A) :
  skipn i t = c :: r -> nth_error t i = Some c /\ skipn (S i) t = r.
Proof.
  revert i; induction t as [|x t IH]; intros [|i] H; cbn in *;
    try discriminate; [inversion H; auto | apply IH, H].
Qed.

Lemma do_title_index (U : unicode_db) (t : list (uchar U)) :
  forall (r : list (uchar U)) (i : nat) (b : bool),
  skipn i t = r ->
  b = match i with
      | 0 => false
      | S j => match nth_error t j with
               | Some p => is_cased_u U p
               | None => false
               end
      end ->
  do_title U t b i r =
  concat
    (map (fun i =>
            match nth_error t i with
            | None => []
            | Some c =>
                let follows_cased :=
                  match i with
                  | 0 => false
                  | S j => match nth_error t j with
                           | Some p => is_cased_u U p
                           | None => false
                           end
                  end in
                if follows_cased then lower_ucs4 U t i c
                else to_title_full U c
            end)
         (seq i (length r))).
Proof.
  induction r as [|c r IH]; intros i b Hs Hb; [reflexivity|].
  apply skipn_cons_nth_error in Hs as [Hc Hs].
  cbn [do_title length seq map concat]. rewrite Hc, <- Hb.
  f_equal. apply IH; [exact Hs|]. cbn. rewrite Hc. reflexivity.
Qed.

Lemma u_lstrip_ascii (s : txt) : u_lstrip ascii_db s = lstrip s.
Proof. induction s as [|c r IH]; cbn; [|destruct (is_space c)]; auto. Qed.

Lemma u_split_sp_ascii (s : txt) : u_split_sp ascii_db s = split_on SP s.
Proof.
  induction s as [|c r IH]; cbn; [reflexivity|]. rewrite IH. reflexivity.
Qed.

Lemma do_title_ascii (t s : txt) (b : bool) (i : nat) :
  do_title ascii_db t b i s = title_aux b s.
Proof.
  revert b i; induction s as [|c r IH]; intros b i; [reflexivity|].
  cbn. rewrite IH. destruct b; reflexivity.
Qed.

(** [types_of] is the model of the type tokens at the ASCII part of the
    database. *)
Lemma types_of_ascii (raw : txt) : types_of raw = u_types_of ascii_db raw.
Proof.
  unfold types_of, u_types_of, u_strip, strip, rstrip.
  change (uchar ascii_db) with ascii.
  rewrite (u_lstrip_ascii raw), (u_lstrip_ascii (rev (lstrip raw))).
  rewrite u_split_sp_ascii.
  apply map_ext. intro t. unfold u_title, title. symmetry. apply do_title_ascii.
Qed.

(** On the fragment [sample_db]: [" 中a".strip().title()] is ["中A"] (the
    letter U+4E2D is not cased), ["ß".title()] is ["Ss"], and the answer
    [" foo_bar "] gives the one token ["Foo_Bar"]. *)
Lemma u_title_samples :
  u_types_of sample_db [32; 20013; 97]%N = [[20013; 65]%N] /\
  u_title sample_db [223]%N = [83; 115]%N /\
  u_types_of sample_db [32; 102; 111; 111; 95; 98; 97; 114; 32]%N =
    [[70; 111; 111; 95; 66; 97; 114]%N].
Proof. vm_compute. repeat split. Qed.

(** ** C6: the existence check comes first *)

(** C6. If the destination already exists, [init] raises [FileExistsError]
    (the destination-exists error) and leaves the world as it found it: no
    prompt printed, no input read, nothing written. *)
Theorem init_dest_exists_no_prompt (filename : txt) (w : world)
  (Hex : dest_exists w = true) :
  init filename w = (Raised FileExistsError, w).
Proof. unfold init, bind, path_exists. rewrite Hex. reflexivity. Qed.

Lemma init_dest_exists_no_prompt_witness :
  init (s2l "rocket.py") existing_world = (Raised FileExistsError, existing_world).
Proof. apply init_dest_exists_no_prompt. reflexivity. Defined.

(** ** C1: an empty name *)

(** C1 (as stated, refuted). With a blank name answer the run does not end
    in a typed, guarded error: it ends in the [IndexError] that Python raises
    on [class_name[0]] for the empty string. *)
Lemma init_blank_name_index_error :
  fst (init (s2l "rocket.py") (fresh_world blank_name_answers))
  = Raised IndexError.
Proof. vm_compute. reflexivity. Qed.

(** C1 (amended). When the stripped name answer is empty, [init] fails with
    [IndexError] right after reading it: only the "Name: " prompt has been
    printed, the other answers are not read, and nothing is written. *)
Theorem init_empty_name (filename raw : txt) (rest : list txt) (w : world)
  (Hex : dest_exists w = false) (Hin : stdin w = raw :: rest)
  (Hempty : strip raw = []) :
  init filename w =
  (Raised IndexError,
   {| dest_exists := false; stdin := rest;
      stdout := stdout w ++ [s2l "Name: "]; dest := dest w;
      can_open := can_open w; room := room w |}).
Proof.
  unfold init, bind, path_exists. rewrite Hex.
  unfold input. rewrite Hin. unfold lift, name_of. rewrite Hempty.
  cbn. rewrite Hex. reflexivity.
Qed.

Lemma init_empty_name_witness :
  init (s2l "rocket.py") (fresh_world blank_name_answers) =
  (Raised IndexError,
   {| dest_exists := false; stdin := tl blank_name_answers;
      stdout := [s2l "Name: "]; dest := None;
      can_open := true; room := None |}).
Proof.
  apply (init_empty_name (s2l "rocket.py") (s2l "   ")
           (tl blank_name_answers) (fresh_world blank_name_answers));
    reflexivity.
Defined.

(** ** C7: the name keeps all but its first character *)



(** ** C2: an empty types answer *)

(** C2 (as stated, refuted). An empty types answer does not give an empty
    type section: splitting the empty string gives one empty token, so one
    declaration line is rendered for it. *)
Lemma types_empty_answer_not_empty :
  types_of [] = [[]] /\ section_types (types_of []) <> [].
Proof. split; [reflexivity | discriminate]. Qed.

(** C2 (amended). When the stripped types answer is empty, the type tokens
    are the single empty token, the type section is the one line
    [type_line []] (an empty identifier and an empty quoted label), and
    the output is still the domain header, that line and the remaining
    sections, problem header included. *)
Theorem types_empty_answer (raw : txt) (Hempty : strip raw = []) :
  types_of raw = [[]] /\
  section_types (types_of raw) = ln (type_line []) /\
  forall class_name ps acts,
    template class_name (types_of raw) ps acts =
    domain_header class_name ++ [NL] ++ ln (type_line []) ++ [NL] ++
    section_predicate ps ++ [NL] ++ section_action acts ++ [NL] ++
    problem_header class_name ++ [NL] ++ section_object ++ [NL] ++
    section_init ++ [NL] ++ section_goal.
Proof.
  assert (Ht : types_of raw = [[]]) by (unfold types_of; rewrite Hempty; reflexivity).
  split; [exact Ht|]. split.
  - rewrite Ht. reflexivity.
  - intros. unfold template. rewrite Ht. reflexivity.
Qed.

Lemma types_empty_answer_witness :
  types_of (s2l "   ") = [[]].
Proof. apply (types_empty_answer (s2l "   ")). reflexivity. Defined.

(** ** C5: title case of the type tokens *)

(** C5 (as stated, refuted). [str.title] also uppercases a letter that
    follows a non-letter inside a token: ["foo_bar"] becomes ["Foo_Bar"],
    not ["Foo_bar"]. *)
Lemma types_title_not_capitalize :
  types_of (s2l "foo_bar") = [s2l "Foo_Bar"] /\
  types_of (s2l "foo_bar") <> [to_upper "f"%char :: lower (s2l "oo_bar")].
Proof. split; [reflexivity | vm_compute; discriminate]. Qed.

(** C5 (amended). Every type token is [str.title] of a token of the split
    answer, read character by character: a character that starts the token
    or follows a character that is not cased is replaced by its full
    titlecase mapping, and a character that follows a cased character by
    its full lowercase mapping (final-sigma rule included). This holds for
    any character database, so for every answer, ASCII or not. *)
Theorem types_of_title_ref (U : unicode_db) (raw : list (uchar U)) :
  u_types_of U raw = map (u_title_ref U) (u_split_sp U (u_strip U raw)).
Proof.
  unfold u_types_of. apply map_ext. intro t.
  unfold u_title, u_title_ref. apply do_title_index; reflexivity.
Qed.

(** ** Layout lemmas *)

Lemma ends_nl_ln (l : txt) : ends_nl (ln l).
Proof. exists l. reflexivity. Qed.

Lemma ends_nl_app (a b : txt) : ends_nl b -> ends_nl (a ++ b).
Proof. intros [x ->]. exists (a ++ x). apply app_assoc. Qed.

Lemma starts_other_app (a b : txt) : starts_other a -> starts_other (a ++ b).
Proof. intros (c & r & -> & Hc). exists c, (r ++ b). auto. Qed.

Ltac ends_nl_tac :=
  first [ apply ends_nl_ln | apply ends_nl_app; ends_nl_tac ].

Lemma ends_nl_py_join (sep : txt) (xs : list txt) :
  xs <> [] -> Forall ends_nl xs -> ends_nl (py_join sep xs).
Proof.
  induction xs as [|x [|y r] IH]; intros Hne Hall; [congruence| |].
  - inversion Hall; assumption.
  - inversion Hall; subst. change (ends_nl (x ++ sep ++ py_join sep (y :: r))).
    apply ends_nl_app, ends_nl_app, IH; [discriminate | assumption].
Qed.

Lemma starts_other_py_join (sep x : txt) (xs : list txt) :
  starts_other x -> starts_other (py_join sep (x :: xs)).
Proof. destruct xs; [auto | apply starts_other_app]. Qed.

Lemma predicate_block_ends (p : txt) : ends_nl (predicate_block p).
Proof. unfold predicate_block. ends_nl_tac. Qed.

Lemma action_block_ends (a : txt) : ends_nl (action_block a).
Proof.
  unfold action_block. ends_nl_tac.
Qed.

Lemma predicate_block_starts (p : txt) : starts_other (predicate_block p).
Proof. eexists _, _. split; [reflexivity | discriminate]. Qed.

Lemma action_block_starts (a : txt) : starts_other (action_block a).
Proof. eexists _, _. split; [reflexivity | discriminate]. Qed.

Lemma split_on_not_nil (sep : ascii) (s : txt) : split_on sep s <> [].
Proof.
  induction s as [|c r IH]; cbn; [discriminate|].
  destruct (Ascii.eqb c sep); [discriminate|].
  destruct (split_on sep r); discriminate.
Qed.

Lemma section_types_ends (ts : list txt) :
  ts <> [] -> ends_nl (section_types ts).
Proof.
  induction ts as [|t [|u r] IH]; intros Hne; [congruence| |].
  - unfold section_types. cbn [map concat]. rewrite app_nil_r. apply ends_nl_ln.
  - unfold section_types in *. cbn [map concat] in *.
    apply ends_nl_app, IH. discriminate.
Qed.

Lemma section_types_starts (t : txt) (ts : list txt) :
  starts_other (section_types (t :: ts)).
Proof. eexists _, _. split; [reflexivity | discriminate]. Qed.

Lemma section_predicate_ends (ps : list txt) :
  ps <> [] -> ends_nl (section_predicate ps).
Proof.
  intros Hne. apply ends_nl_py_join.
  - destruct ps; [congruence | discriminate].
  - apply Forall_map, Forall_forall. intros; apply predicate_block_ends.
Qed.

Lemma section_action_ends (acts : list txt) :
  acts <> [] -> ends_nl (section_action acts).
Proof.
  intros Hne. apply ends_nl_py_join.
  - destruct acts; [congruence | discriminate].
  - apply Forall_map, Forall_forall. intros; apply action_block_ends.
Qed.

(** ** C3: blank line between stub blocks *)

(** C3 (as stated, refuted). Two predicate stub blocks are separated by an
    empty line: each block ends with a newline and ["\n".join] adds one. *)
Lemma predicate_blocks_blank_line :
  firstn 3 (skipn 2 (lines (section_predicate [s2l "launched"; s2l "docked"])))
  = [s2l "        " ++ TQ ++ s2l "Complete the method signature" ++ TQ;
     [];
     s2l "    @predicate(...)"].
Proof. vm_compute. reflexivity. Qed.

(** C3 (amended). Consecutive predicate stub blocks, and consecutive action
    stub blocks, are separated by exactly one empty line: the first block
    ends with a newline, one more newline follows, and the next block starts
    with another character. *)
Theorem stub_blocks_one_blank_line (p q : txt) (r : list txt) :
  (section_predicate (p :: q :: r) =
     gap (predicate_block p) 1 (section_predicate (q :: r)) /\
   ends_nl (predicate_block p) /\ starts_other (section_predicate (q :: r))) /\
  (section_action (p :: q :: r) =
     gap (action_block p) 1 (section_action (q :: r)) /\
   ends_nl (action_block p) /\ starts_other (section_action (q :: r))).
Proof.
  split; split; try reflexivity; split.
  - apply predicate_block_ends.
  - apply starts_other_py_join, predicate_block_starts.
  - apply action_block_ends.
  - apply starts_other_py_join, action_block_starts.
Qed.

(** ** C4: spacing between the six sections *)

(** C4 (as stated, refuted). In the rocket scenario two empty lines, not
    one, separate the last action line from the problem class line. *)
Lemma template_two_blank_lines_before_problem :
  option_map (fun t => firstn 4 (skipn 22 (lines t)))
    (dest (snd (init (s2l "rocket.py") (fresh_world rocket_answers))))
  = Some [s2l "        return precond, effect"; []; [];
          s2l "class RocketProblem(RocketDomain):"].
Proof. vm_compute. reflexivity. Qed.

(** C4 (amended). For all answers, the six sections follow each other
    separated by exactly one empty line, except the action stubs and the
    problem header, which are separated by two empty lines: every section
    ends with a newline, every section after the first starts with another
    character, and the newlines between them are as given. *)
Theorem template_layout (class_name types_raw preds_raw acts_raw : txt) :
  let ts := types_of types_raw in
  let ps := predicates_of preds_raw in
  let acts := actions_of acts_raw in
  template class_name ts ps acts =
    gap (domain_header class_name) 1
      (gap (section_types ts) 1
        (gap (section_predicate ps) 1
          (gap (section_action acts) 2
            (gap (problem_class_line class_name) 1 section_stubs)))) /\
  Forall ends_nl [domain_header class_name; section_types ts;
                  section_predicate ps; section_action acts;
                  problem_class_line class_name; section_stubs] /\
  Forall starts_other [section_types ts; section_predicate ps;
                       section_action acts; problem_class_line class_name;
                       section_stubs].
Proof.
  intros ts ps acts.
  assert (Hts : ts <> []) by
    (unfold ts, types_of; intro H; apply map_eq_nil in H;
     exact (split_on_not_nil _ _ H)).
  assert (Hps : ps <> []) by
    (unfold ps, predicates_of; intro H; apply map_eq_nil in H;
     exact (split_on_not_nil _ _ H)).
  assert (Has : acts <> []) by
    (unfold acts, actions_of; intro H; apply map_eq_nil in H;
     exact (split_on_not_nil _ _ H)).
  split; [|split].
  - unfold template, gap, problem_header, section_stubs.
    rewrite <- !app_assoc. reflexivity.
  - repeat constructor.
    + unfold domain_header. ends_nl_tac.
    + apply section_types_ends; assumption.
    + apply section_predicate_ends; assumption.
    + apply section_action_ends; assumption.
    + apply ends_nl_ln.
    + unfold section_stubs, section_goal. ends_nl_tac.
  - repeat constructor.
    + destruct ts; [congruence | apply section_types_starts].
    + destruct ps; [congruence|].
      apply starts_other_py_join, predicate_block_starts.
    + destruct acts; [congruence|].
      apply starts_other_py_join, action_block_starts.
    + eexists _, _. split; [reflexivity | discriminate].
    + eexists _, _. split; [reflexivity | discriminate].
Qed.

(** ** The outcomes of a run *)

(** The text [init] renders from the four answers, once the name is known. *)
Definition rendered (cn tr pr ar : txt) : txt :=
  template cn (types_of tr) (predicates_of pr) (actions_of ar).

(** Every run of [init] ends in one of three ways: it succeeds after
    reading four answers and the destination holds the whole rendered text;
    it fails and the destination is untouched; or the write fails and the
    destination holds a strict prefix of the rendered text. *)
Lemma init_cases (filename : txt) (w : world) (r : result unit) (w' : world) :
  init filename w = (r, w') ->
  (r = Ok tt /\ dest_exists w = false /\
   exists n tr pr ar cn, stdin w = n :: tr :: pr :: ar :: stdin w' /\
     name_of n = Ok cn /\ dest w' = Some (rendered cn tr pr ar)) \/
  (r <> Ok tt /\ dest w' = dest w) \/
  (r = Raised OSError /\ dest_exists w = false /\
   exists n tr pr ar cn k, stdin w = n :: tr :: pr :: ar :: stdin w' /\
     name_of n = Ok cn /\ k < length (rendered cn tr pr ar) /\
     dest w' = Some (firstn k (rendered cn tr pr ar))).
Proof.
  unfold init, bind, path_exists, raise, input, lift, open_w, write, print.
  destruct (dest_exists w) eqn:Hex.
  { intros H; inversion H; subst. right; left. split; [discriminate | reflexivity]. }
  destruct (stdin w) as [|n l1] eqn:Hin; cbn -[template].
  { intros H; inversion H; subst. right; left. split; [discriminate | reflexivity]. }
  destruct (name_of n) as [cn|e] eqn:Hn; cbn -[template].
  2:{ intros H; inversion H; subst. right; left. split; [discriminate | reflexivity]. }
  destruct l1 as [|tr [|pr [|ar rest]]]; cbn -[template];
    try (intros H; inversion H; subst; right; left;
         split; [discriminate | reflexivity]).
  destruct (can_open w) eqn:Ho; cbn -[template].
  2:{ intros H; inversion H; subst. right; left. split; [discriminate | reflexivity]. }
  destruct (room w) as [k|] eqn:Hr.
  2:{ intros H; inversion H; subst. left. split; [reflexivity|]. split; [reflexivity|].
      exists n, tr, pr, ar, cn. cbn -[template]. auto. }
  destruct (Nat.leb_spec (length (template cn (types_of tr) (predicates_of pr)
                                    (actions_of ar))) k) as [Hle|Hlt].
  - intros H; inversion H; subst. left. split; [reflexivity|]. split; [reflexivity|].
    exists n, tr, pr, ar, cn. cbn -[template]. auto.
  - intros H; inversion H; subst. right; right. split; [reflexivity|].
    split; [reflexivity|]. exists n, tr, pr, ar, cn, k. cbn -[template]. auto.
Qed.

(** ** C9: no partial success *)



Lemma init_ok_dest (filename n tr pr ar : txt) (rest : list txt) (w : world) :
  fst (init filename (set_stdin w (n :: tr :: pr :: ar :: rest))) = Ok tt ->
  exists cn, name_of n = Ok cn /\
    dest (snd (init filename (set_stdin w (n :: tr :: pr :: ar :: rest))))
    = Some (rendered cn tr pr ar).
Proof.
  destruct (init filename (set_stdin w (n :: tr :: pr :: ar :: rest)))
    as [r w'] eqn:H; cbn [fst snd]; intros ->.
  apply init_cases in H.
  destruct H as [(_ & _ & n' & tr' & pr' & ar' & cn & Hin & Hn & Hd)
                | [(Hne & _) | (Hr & _)]]; [| congruence | discriminate].
  cbn in Hin. injection Hin as <- <- <- <- _. eauto.
Qed.

(** ** C10: the name only reaches the two headers *)

(** C10. Two successful runs whose types, predicates and actions answers
    are the same write files that differ only in the domain header and the
    problem header: the text between the two headers and the text after
    the problem header are the same and do not depend on the name. *)
Theorem init_name_changes_headers_only (filename n1 n2 tr pr ar : txt)
  (rest : list txt) (w : world)
  (Hok1 : fst (init filename (set_stdin w (n1 :: tr :: pr :: ar :: rest))) = Ok tt)
  (Hok2 : fst (init filename (set_stdin w (n2 :: tr :: pr :: ar :: rest))) = Ok tt) :
  let mid := [NL] ++ section_types (types_of tr) ++ [NL] ++
             section_predicate (predicates_of pr) ++ [NL] ++
             section_action (actions_of ar) ++ [NL] in
  let tail := [NL] ++ section_stubs in
  exists c1 c2,
    name_of n1 = Ok c1 /\ name_of n2 = Ok c2 /\
    dest (snd (init filename (set_stdin w (n1 :: tr :: pr :: ar :: rest))))
      = Some (domain_header c1 ++ mid ++ problem_header c1 ++ tail) /\
    dest (snd (init filename (set_stdin w (n2 :: tr :: pr :: ar :: rest))))
      = Some (domain_header c2 ++ mid ++ problem_header c2 ++ tail).
Proof.
  intros mid tail.
  destruct (init_ok_dest _ _ _ _ _ _ _ Hok1) as (c1 & Hn1 & Hd1).
  destruct (init_ok_dest _ _ _ _ _ _ _ Hok2) as (c2 & Hn2 & Hd2).
  exists c1, c2. rewrite Hd1, Hd2.
  unfold rendered, template, mid, tail, section_stubs.
  rewrite <- !app_assoc. auto.
Qed.

Lemma init_name_changes_headers_only_witness :
  let mid := [NL] ++ section_types (types_of (s2l "location stage")) ++ [NL] ++
             section_predicate (predicates_of (s2l "launched docked")) ++ [NL] ++
             section_action (actions_of (s2l "launch")) ++ [NL] in
  let tail := [NL] ++ section_stubs in
  exists c1 c2,
    name_of (s2l "rocket") = Ok c1 /\ name_of (s2l "shuttle") = Ok c2 /\
    dest (snd (init (s2l "r.py") (set_stdin (fresh_world []) rocket_answers)))
      = Some (domain_header c1 ++ mid ++ problem_header c1 ++ tail) /\
    dest (snd (init (s2l "r.py") (set_stdin (fresh_world [])
        (s2l "shuttle" :: tl rocket_answers))))
      = Some (domain_header c2 ++ mid ++ problem_header c2 ++ tail).
Proof.
  apply (init_name_changes_headers_only (s2l "r.py") (s2l "rocket")
           (s2l "shuttle") (s2l "location stage") (s2l "launched docked")
           (s2l "launch") [] (fresh_world []));
    vm_compute; reflexivity.
Defined.

(** ** Line counting lemmas *)

Lemma txt_eqb_eq (a b : txt) : txt_eqb a b = true -> a = b.
Proof.
  revert b; induction a as [|x a IH]; intros [|y b]; cbn; try discriminate; auto.
  intros H. apply andb_prop in H as [H1 H2]. apply Ascii.eqb_eq in H1.
  subst. f_equal. auto.
Qed.

Lemma txt_eqb_len (a b : txt) : length a <> length b -> txt_eqb a b = false.
Proof.
  intros Hl. destruct (txt_eqb a b) eqn:E; [|reflexivity].
  apply txt_eqb_eq in E. subst. congruence.
Qed.

Lemma ends_with_app (suf a b : txt) :
  length suf <= length b -> ends_with suf (a ++ b) = ends_with suf b.
Proof.
  intros Hl. induction a as [|c a IH]; [reflexivity|].
  cbn [app ends_with]. rewrite IH, txt_eqb_len; [reflexivity|].
  cbn [length]. rewrite length_app. lia.
Qed.

Lemma has_nl_app (a b : txt) : has_nl (a ++ b) = has_nl a || has_nl b.
Proof. apply existsb_app. Qed.

Lemma split_on_app_sep (sep : ascii) (x y : txt) :
  split_on sep (x ++ sep :: y) = split_on sep x ++ split_on sep y.
Proof.
  induction x as [|c r IH]; cbn [app split_on].
  - rewrite Ascii.eqb_refl. reflexivity.
  - rewrite IH. destruct (Ascii.eqb c sep); [reflexivity|].
    destruct (split_on sep r) eqn:E;
      [exfalso; exact (split_on_not_nil _ _ E) | reflexivity].
Qed.

Lemma split_on_no_nl (x : txt) : has_nl x = false -> split_on NL x = [x].
Proof.
  induction x as [|c r IH]; [reflexivity|].
  unfold has_nl; cbn [existsb split_on]. intros H.
  apply orb_false_iff in H as [H1 H2].
  rewrite Ascii.eqb_sym, H1, IH by exact H2. reflexivity.
Qed.

Lemma count_lines_sep (P : txt -> bool) (x y : txt) :
  count_lines P (x ++ NL :: y) = count_lines P x + count_lines P y.
Proof.
  unfold count_lines, lines. rewrite split_on_app_sep, filter_app.
  apply length_app.
Qed.

Lemma count_lines_ln (P : txt -> bool) (l y : txt) :
  has_nl l = false ->
  count_lines P (ln l ++ y) = Nat.b2n (P l) + count_lines P y.
Proof.
  intros Hl. unfold ln. rewrite <- app_assoc. cbn [app].
  rewrite count_lines_sep. unfold count_lines at 1, lines.
  rewrite split_on_no_nl by exact Hl. cbn. destruct (P l); reflexivity.
Qed.

Lemma count_lines_nl (P : txt -> bool) (y : txt) :
  P [] = false -> count_lines P ([NL] ++ y) = count_lines P y.
Proof.
  intros H0. change ([NL] ++ y) with ([] ++ NL :: y).
  rewrite count_lines_sep. unfold count_lines at 1. cbn. rewrite H0.
  reflexivity.
Qed.

Lemma count_lines_ln_end (P : txt -> bool) (l : txt) :
  P [] = false -> has_nl l = false -> count_lines P (ln l) = Nat.b2n (P l).
Proof.
  intros H0 Hl. rewrite <- (app_nil_r (ln l)), count_lines_ln by exact Hl.
  unfold count_lines, lines. cbn. rewrite H0. cbn. lia.
Qed.

Lemma length_filter_cons (P : txt -> bool) (x : txt) (l : list txt) :
  length (filter P (x :: l)) = Nat.b2n (P x) + length (filter P l).
Proof. cbn. destruct (P x); reflexivity. Qed.

Ltac nl_tac :=
  repeat match goal with H : Forall _ (_ :: _) |- _ => inversion_clear H end;
  repeat rewrite has_nl_app;
  repeat match goal with H : has_nl _ = false |- _ => rewrite H end;
  reflexivity.

Section Counting.

Variable P : txt -> bool.
Hypothesis P_empty : P [] = false.

Lemma count_section_types (ts : list txt) (y : txt) :
  Forall (fun t => has_nl t = false) ts ->
  count_lines P (section_types ts ++ y) =
  length (filter P (map type_line ts)) + count_lines P y.
Proof.
  induction ts as [|t ts IH]; intros Hts; [reflexivity|].
  inversion_clear Hts as [|? ? Ht Hts'].
  unfold section_types. cbn [map concat]. fold (section_types ts).
  rewrite <- app_assoc, count_lines_ln by (unfold type_line; nl_tac).
  rewrite IH by exact Hts'. rewrite length_filter_cons. lia.
Qed.

(** The stub sections: ["\n".join] of blocks, followed by a newline. *)
Lemma count_section_join (blk : txt -> txt) (blk_lines : txt -> list txt)
  (Hblk : forall p y, has_nl p = false ->
            count_lines P (blk p ++ y) =
            length (filter P (blk_lines p)) + count_lines P y)
  (ps : list txt) (y : txt) :
  Forall (fun p => has_nl p = false) ps ->
  count_lines P (py_join [NL] (map blk ps) ++ [NL] ++ y) =
  length (filter P (concat (map blk_lines ps))) + count_lines P y.
Proof.
  induction ps as [|p [|q r] IH]; intros Hps.
  - cbn [map py_join app]. apply count_lines_nl, P_empty.
  - inversion_clear Hps. cbn [map py_join concat].
    rewrite Hblk, count_lines_nl, app_nil_r by assumption. reflexivity.
  - inversion_clear Hps as [|? ? Hp Hqr].
    change (py_join [NL] (map blk (p :: q :: r)))
      with (blk p ++ [NL] ++ py_join [NL] (map blk (q :: r))).
    rewrite <- !app_assoc, Hblk, count_lines_nl, IH by assumption.
    change (concat (map blk_lines (p :: q :: r)))
      with (blk_lines p ++ concat (map blk_lines (q :: r))).
    rewrite filter_app, length_app. lia.
Qed.

Lemma count_predicate_block (p y : txt) :
  has_nl p = false ->
  count_lines P (predicate_block p ++ y) =
  length (filter P (predicate_lines p)) + count_lines P y.
Proof.
  intros Hp. unfold predicate_block, predicate_lines.
  rewrite <- !app_assoc, !count_lines_ln by nl_tac.
  rewrite !length_filter_cons. cbn [filter length]. lia.
Qed.

Lemma count_action_block (a y : txt) :
  has_nl a = false ->
  count_lines P (action_block a ++ y) =
  length (filter P (action_lines a)) + count_lines P y.
Proof.
  intros Ha. unfold action_block, action_lines.
  rewrite <- !app_assoc, !count_lines_ln by nl_tac.
  rewrite !length_filter_cons. cbn [filter length]. lia.
Qed.

(** The lines of the output that satisfy [P] are those of [template_lines]
    that satisfy it: the remaining lines of the output are empty. *)
Lemma count_template (class_name : txt) (ts ps acts : list txt) :
  has_nl class_name = false ->
  Forall (fun t => has_nl t = false) ts ->
  Forall (fun p => has_nl p = false) ps ->
  Forall (fun a => has_nl a = false) acts ->
  count_lines P (template class_name ts ps acts) =
  length (filter P (template_lines class_name ts ps acts)).
Proof.
  intros Hcn Hts Hps Has.
  unfold template, domain_header, problem_header, section_object,
    section_init, section_goal.
  rewrite <- !app_assoc.
  rewrite !count_lines_ln by nl_tac.
  rewrite count_lines_nl, count_section_types by assumption.
  rewrite count_lines_nl by assumption.
  unfold section_predicate.
  rewrite (count_section_join predicate_block predicate_lines
             count_predicate_block) by assumption.
  unfold section_action.
  rewrite (count_section_join action_block action_lines
             count_action_block) by assumption.
  repeat ((rewrite count_lines_ln by nl_tac) ||
          (rewrite count_lines_nl by assumption)).
  rewrite count_lines_ln_end by (assumption || nl_tac).
  unfold template_lines.
  rewrite !filter_app, !length_app, !length_filter_cons, P_empty.
  cbn [filter length Nat.b2n]. lia.
Qed.

End Counting.

(** ** The answers carry no newline into the tokens *)

Lemma has_nl_false_iff (s : txt) : has_nl s = false <-> ~ In NL s.
Proof.
  unfold has_nl. split.
  - intros H Hin.
    assert (E : existsb (Ascii.eqb NL) s = true)
      by (apply existsb_exists; exists NL; split; [exact Hin | apply Ascii.eqb_refl]).
    congruence.
  - intros H. destruct (existsb (Ascii.eqb NL) s) eqn:E; [|reflexivity].
    apply existsb_exists in E as (x & Hx & Hq). apply Ascii.eqb_eq in Hq.
    subst. contradiction.
Qed.

Lemma to_upper_nl (c : ascii) : to_upper c = NL -> c = NL.
Proof.
  intros H. destruct c as [[] [] [] [] [] [] [] []]; vm_compute in H;
    first [reflexivity | discriminate H].
Qed.

Lemma to_lower_nl (c : ascii) : to_lower c = NL -> c = NL.
Proof.
  intros H. destruct c as [[] [] [] [] [] [] [] []]; vm_compute in H;
    first [reflexivity | discriminate H].
Qed.

Lemma in_lstrip (c : ascii) (s : txt) : In c (lstrip s) -> In c s.
Proof.
  induction s as [|d r IH]; cbn; [auto|].
  destruct (is_space d); [auto | tauto].
Qed.

Lemma in_strip (c : ascii) (s : txt) : In c (strip s) -> In c s.
Proof.
  unfold strip, rstrip. intros H.
  apply in_rev, in_lstrip, in_rev in H. apply in_lstrip, H.
Qed.

Lemma in_split_on (sep c : ascii) (s t : txt) :
  In t (split_on sep s) -> In c t -> In c s.
Proof.
  revert t; induction s as [|d r IH]; intros t Ht Hc; cbn in Ht.
  - destruct Ht as [<-|[]]. destruct Hc.
  - destruct (Ascii.eqb d sep).
    + destruct Ht as [<-|Ht]; [destruct Hc|]. right. eapply IH; eauto.
    + destruct (split_on sep r) as [|w ws] eqn:E.
      * destruct Ht as [<-|[]]. destruct Hc as [<-|[]]. left; reflexivity.
      * destruct Ht as [<-|Ht].
        -- destruct Hc as [<-|Hc]; [left; reflexivity|].
           right. apply (IH w); [left; reflexivity | exact Hc].
        -- right. apply (IH t); [right; exact Ht | exact Hc].
Qed.

Lemma in_title_aux_nl (b : bool) (t : txt) : In NL (title_aux b t) -> In NL t.
Proof.
  revert b; induction t as [|c r IH]; intros b; cbn; [auto|].
  intros [H|H]; [left | right; eapply IH; exact H].
  destruct b; [apply to_lower_nl | apply to_upper_nl]; congruence.
Qed.

Lemma in_lower_nl (t : txt) : In NL (lower t) -> In NL t.
Proof.
  unfold lower. intros H. apply in_map_iff in H as (c & Hc & Hin).
  apply to_lower_nl in Hc. subst. exact Hin.
Qed.

Lemma tokens_no_nl (f : txt -> txt) (raw : txt) :
  (forall t, In NL (f t) -> In NL t) ->
  has_nl raw = false ->
  Forall (fun t => has_nl t = false) (map f (split_on SP (strip raw))).
Proof.
  intros Hf Hraw. apply Forall_forall. intros x Hx.
  apply in_map_iff in Hx as (t & <- & Ht).
  apply has_nl_false_iff. intros Hin. apply Hf in Hin.
  apply (in_split_on _ _ _ _ Ht), in_strip in Hin.
  apply has_nl_false_iff in Hraw. contradiction.
Qed.

Lemma length_filter_none (P : txt -> bool) (l : list txt) :
  (forall x, In x l -> P x = false) -> length (filter P l) = 0.
Proof.
  induction l as [|x l IH]; intros H; [reflexivity|].
  cbn. rewrite H by (left; reflexivity). apply IH. intros; apply H; right; auto.
Qed.

Lemma length_filter_all (P : txt -> bool) (l : list txt) :
  (forall x, In x l -> P x = true) -> length (filter P l) = length l.
Proof.
  induction l as [|x l IH]; intros H; [reflexivity|].
  cbn. rewrite H by (left; reflexivity). cbn. f_equal.
  apply IH. intros; apply H; right; auto.
Qed.

Lemma length_filter_concat_map (P : txt -> bool) (f : txt -> list txt)
  (k : nat) (ps : list txt) :
  (forall p, length (filter P (f p)) = k) ->
  length (filter P (concat (map f ps))) = k * length ps.
Proof.
  intros Hf. induction ps as [|p ps IH]; cbn [map concat length]; [cbn; lia|].
  rewrite filter_app, length_app, Hf, IH. lia.
Qed.

Lemma length_type_line (t : txt) : length (type_line t) = 22 + 2 * length t.
Proof. unfold type_line. rewrite !length_app. cbn. lia. Qed.

Ltac ends_with_tac :=
  unfold is_type_decl;
  repeat (rewrite ends_with_app by (rewrite ?length_app; cbn; lia));
  reflexivity.

Lemma is_type_decl_def_line (p : txt) :
  is_type_decl (s2l "    def " ++ p ++ s2l "(self):") = false.
Proof. ends_with_tac. Qed.

Lemma is_type_decl_domain_line (class_name : txt) :
  is_type_decl (s2l "class " ++ class_name ++ s2l "Domain(Domain):") = false.
Proof. ends_with_tac. Qed.

Lemma is_type_decl_problem_line (class_name : txt) :
  is_type_decl (s2l "class " ++ class_name ++ s2l "Problem(" ++ class_name ++
                s2l "Domain):") = false.
Proof. ends_with_tac. Qed.

(** ** C8: one block or line per token *)

(** C8. For answers without a newline (as [input] returns them), the
    output has one predicate stub block (first line [    @predicate(...)])
    per token of the split predicates answer, one action stub block (first
    line [    @action(...)]) per token of the split actions answer, and one
    type declaration line per token of the split types answer; empty and
    repeated tokens are counted like the others. *)
Theorem output_block_counts (class_name tr pr ar : txt)
  (Hcn : has_nl class_name = false) (Htr : has_nl tr = false)
  (Hpr : has_nl pr = false) (Har : has_nl ar = false) :
  count_lines is_predicate_marker (rendered class_name tr pr ar)
    = length (split_on SP (strip pr)) /\
  count_lines is_action_marker (rendered class_name tr pr ar)
    = length (split_on SP (strip ar)) /\
  count_lines is_type_decl (rendered class_name tr pr ar)
    = length (split_on SP (strip tr)).
Proof.
  assert (Hts := tokens_no_nl title tr (in_title_aux_nl false) Htr).
  assert (Hps := tokens_no_nl lower pr in_lower_nl Hpr).
  assert (Has := tokens_no_nl lower ar in_lower_nl Har).
  unfold rendered, types_of, predicates_of, actions_of.
  split; [|split];
    (rewrite count_template; [|reflexivity | assumption ..]);
    unfold template_lines; rewrite !filter_app, !length_app.
  - rewrite length_filter_none with (l := map type_line _).
    2:{ intros x Hx. apply in_map_iff in Hx as (t & <- & _).
        apply txt_eqb_len. rewrite length_type_line. cbn. lia. }
    rewrite (length_filter_concat_map _ predicate_lines 1) by reflexivity.
    rewrite (length_filter_concat_map _ action_lines 0) by reflexivity.
    rewrite !length_map. cbn. lia.
  - rewrite length_filter_none with (l := map type_line _).
    2:{ intros x Hx. apply in_map_iff in Hx as (t & <- & _).
        apply txt_eqb_len. rewrite length_type_line. cbn. lia. }
    rewrite (length_filter_concat_map _ predicate_lines 0) by reflexivity.
    rewrite (length_filter_concat_map _ action_lines 1) by reflexivity.
    rewrite !length_map. cbn. lia.
  - rewrite length_filter_all with (l := map type_line _).
    2:{ intros x Hx. apply in_map_iff in Hx as (t & <- & _).
        unfold type_line. ends_with_tac. }
    rewrite (length_filter_concat_map _ predicate_lines 0)
      by (intros p; unfold predicate_lines;
          rewrite !length_filter_cons, is_type_decl_def_line; reflexivity).
    rewrite (length_filter_concat_map _ action_lines 0)
      by (intros a; unfold action_lines;
          rewrite !length_filter_cons, is_type_decl_def_line; reflexivity).
    rewrite !length_map, !length_filter_cons, is_type_decl_domain_line,
      is_type_decl_problem_line.
    cbn. lia.
Qed.

Lemma output_block_counts_witness :
  count_lines is_predicate_marker
    (rendered (s2l "Rocket") (s2l "location stage") (s2l "launched  docked")
       (s2l "launch launch")) = 3 /\
  count_lines is_action_marker
    (rendered (s2l "Rocket") (s2l "location stage") (s2l "launched  docked")
       (s2l "launch launch")) = 2 /\
  count_lines is_type_decl
    (rendered (s2l "Rocket") (s2l "location stage") (s2l "launched  docked")
       (s2l "launch launch")) = 2.
Proof. apply output_block_counts; reflexivity. Defined.

(** ** Further properties of the normalisation *)

Ltac ascii_cases c :=
  destruct c as [[] [] [] [] [] [] [] []]; vm_compute; reflexivity.

Lemma to_upper_sp (c : ascii) : to_upper c = SP -> c = SP.
Proof.
  intros H. destruct c as [[] [] [] [] [] [] [] []]; vm_compute in H;
    first [reflexivity | discriminate H].
Qed.

Lemma to_lower_sp (c : ascii) : to_lower c = SP -> c = SP.
Proof.
  intros H. destruct c as [[] [] [] [] [] [] [] []]; vm_compute in H;
    first [reflexivity | discriminate H].
Qed.

Lemma is_upper_to_lower (c : ascii) : is_upper (to_lower c) = false.
Proof. ascii_cases c. Qed.

Lemma to_lower_idem (c : ascii) : to_lower (to_lower c) = to_lower c.
Proof. ascii_cases c. Qed.

Lemma py_join_cons_head (sep : txt) (c : ascii) (w : txt) (ws : list txt) :
  py_join sep ((c :: w) :: ws) = c :: py_join sep (w :: ws).
Proof. destruct ws; reflexivity. Qed.

(** X1. Joining the tokens of [s.split(" ")] with a space gives [s] back:
    the split loses no character, empty tokens included. *)
Theorem split_join_roundtrip (s : txt) : py_join [SP] (split_on SP s) = s.
Proof.
  induction s as [|c r IH]; [reflexivity|]. cbn [split_on].
  destruct (Ascii.eqb c SP) eqn:E.
  - apply Ascii.eqb_eq in E. subst.
    destruct (split_on SP r) eqn:Er; [exfalso; exact (split_on_not_nil _ _ Er)|].
    rewrite <- IH. reflexivity.
  - destruct (split_on SP r) as [|w ws] eqn:Er;
      [exfalso; exact (split_on_not_nil _ _ Er)|].
    rewrite py_join_cons_head, IH. reflexivity.
Qed.

Lemma split_on_no_sep (sep : ascii) (s t : txt) :
  In t (split_on sep s) -> ~ In sep t.
Proof.
  revert t; induction s as [|c r IH]; intros t Ht Hin; cbn in Ht.
  - destruct Ht as [<-|[]]. exact Hin.
  - destruct (Ascii.eqb c sep) eqn:E.
    + destruct Ht as [<-|Ht]; [exact Hin | exact (IH t Ht Hin)].
    + destruct (split_on sep r) as [|w ws] eqn:Er.
      * destruct Ht as [<-|[]]. destruct Hin as [<-|[]].
        rewrite Ascii.eqb_refl in E. discriminate.
      * destruct Ht as [<-|Ht].
        -- destruct Hin as [<-|Hin]; [rewrite Ascii.eqb_refl in E; discriminate|].
           exact (IH w (or_introl eq_refl) Hin).
        -- exact (IH t (or_intror Ht) Hin).
Qed.

Lemma in_title_aux_sp (b : bool) (t : txt) : In SP (title_aux b t) -> In SP t.
Proof.
  revert b; induction t as [|c r IH]; intros b; cbn; [auto|].
  intros [H|H]; [left | right; eapply IH; exact H].
  destruct b; [apply to_lower_sp | apply to_upper_sp]; congruence.
Qed.

Lemma in_lower_sp (t : txt) : In SP (lower t) -> In SP t.
Proof.
  unfold lower. intros H. apply in_map_iff in H as (c & Hc & Hin).
  apply to_lower_sp in Hc. subst. exact Hin.
Qed.

(** X2. No type, predicate or action token contains a space. *)
Theorem tokens_have_no_space (raw t : txt) :
  In t (types_of raw) \/ In t (predicates_of raw) \/ In t (actions_of raw) ->
  ~ In SP t.
Proof.
  unfold types_of, predicates_of, actions_of.
  intros [H|[H|H]]; apply in_map_iff in H as (u & <- & Hu); intros Hin.
  - apply in_title_aux_sp in Hin. exact (split_on_no_sep _ _ _ Hu Hin).
  - apply in_lower_sp in Hin. exact (split_on_no_sep _ _ _ Hu Hin).
  - apply in_lower_sp in Hin. exact (split_on_no_sep _ _ _ Hu Hin).
Qed.

Lemma tokens_have_no_space_witness :
  ~ In SP (s2l "Stage").
Proof.
  apply (tokens_have_no_space (s2l "location stage")). left.
  vm_compute. right. left. reflexivity.
Defined.

Lemma length_split_on (sep : ascii) (s : txt) :
  length (split_on sep s) = S (count_occ ascii_dec s sep).
Proof.
  induction s as [|c r IH]; [reflexivity|]. cbn [split_on count_occ].
  destruct (ascii_dec c sep) as [->|Hne].
  - rewrite Ascii.eqb_refl. cbn. rewrite IH. reflexivity.
  - apply Ascii.eqb_neq in Hne. rewrite Hne.
    destruct (split_on sep r) eqn:Er; [exfalso; exact (split_on_not_nil _ _ Er)|].
    exact IH.
Qed.

(** X3. Each of the three token lists has one token more than the stripped
    answer has spaces. *)
Theorem token_count_spaces (raw : txt) :
  length (types_of raw) = S (count_occ ascii_dec (strip raw) SP) /\
  length (predicates_of raw) = S (count_occ ascii_dec (strip raw) SP) /\
  length (actions_of raw) = S (count_occ ascii_dec (strip raw) SP).
Proof.
  unfold types_of, predicates_of, actions_of. rewrite !length_map.
  rewrite length_split_on. auto.
Qed.

(** X4. Predicate and action tokens contain no uppercase letter, and
    lowercasing them again changes nothing. *)
Theorem lower_tokens_lowercase (raw t : txt) :
  In t (predicates_of raw) \/ In t (actions_of raw) ->
  forallb (fun c => negb (is_upper c)) t = true /\ lower t = t.
Proof.
  unfold predicates_of, actions_of.
  intros H. assert (Hu : exists u, t = lower u) by
    (destruct H as [H|H]; apply in_map_iff in H as (u & <- & _); eauto).
  destruct Hu as [u ->]. clear H. unfold lower. split.
  - apply forallb_forall. intros c Hc. apply in_map_iff in Hc as (d & <- & _).
    rewrite is_upper_to_lower. reflexivity.
  - rewrite map_map. apply map_ext. apply to_lower_idem.
Qed.

Lemma lower_tokens_lowercase_witness :
  forallb (fun c => negb (is_upper c)) (s2l "launch") = true /\
  lower (s2l "launch") = s2l "launch".
Proof.
  apply (lower_tokens_lowercase (s2l "LAUNCH")). right.
  vm_compute. left. reflexivity.
Defined.


Lemma lstrip_spec (s : txt) :
  exists a, s = a ++ lstrip s /\ forallb is_space a = true /\
    match lstrip s with [] => True | c :: _ => is_space c = false end.
Proof.
  induction s as [|x r IH]; [exists []; repeat split|]. cbn [lstrip].
  destruct (is_space x) eqn:E.
  - destruct IH as (a & Ha & Hsp & Hhd). exists (x :: a).
    cbn. rewrite E, <- Ha. repeat split; assumption.
  - exists []. cbn. rewrite E. repeat split.
Qed.

Lemma forallb_rev {A} (f : A -> bool) (l : list A) :
  forallb f (rev l) = forallb f l.
Proof.
  induction l as [|x l IH]; [reflexivity|].
  cbn. rewrite forallb_app, IH. cbn. rewrite andb_true_r, andb_comm. reflexivity.
Qed.

Lemma rstrip_spec (s : txt) :
  exists b, s = rstrip s ++ b /\ forallb is_space b = true /\
    match rev (rstrip s) with [] => True | c :: _ => is_space c = false end.
Proof.
  destruct (lstrip_spec (rev s)) as (a & Ha & Hsp & Hhd).
  exists (rev a). unfold rstrip. rewrite rev_involutive, forallb_rev.
  split; [|auto].
  rewrite <- rev_app_distr, <- Ha, rev_involutive. reflexivity.
Qed.

(** X6. [s.lstrip().rstrip()] removes exactly a whitespace prefix and a
    whitespace suffix: the answer is that prefix, the stripped text and that
    suffix, and the stripped text, when non-empty, neither starts nor ends
    with whitespace. *)
Theorem strip_spec (s : txt) :
  exists a b, s = a ++ strip s ++ b /\
    forallb is_space a = true /\ forallb is_space b = true /\
    match strip s with [] => True | c :: _ => is_space c = false end /\
    match rev (strip s) with [] => True | c :: _ => is_space c = false end.
Proof.
  destruct (lstrip_spec s) as (a & Ha & Hsa & Hhd).
  destruct (rstrip_spec (lstrip s)) as (b & Hb & Hsb & Htl).
  exists a, b. unfold strip. split; [|split; [|split; [|split]]]; auto.
  - rewrite Ha at 1. rewrite Hb at 1. reflexivity.
  - destruct (rstrip (lstrip s)) as [|c r] eqn:E; [exact I|].
    rewrite Hb in Hhd. exact Hhd.
Qed.

Lemma name_of_raised (raw : txt) (e : exn) :
  name_of raw = Raised e -> e = IndexError /\ strip raw = [].
Proof.
  unfold name_of. destruct (strip raw) as [|c r]; cbn;
    [intros H; inversion H; auto | discriminate].
Qed.


(** ** Further properties of [init] *)



(** X9. When standard input runs out before the four answers are read (and
    a name line present is not blank), the run raises [EOFError], has read
    everything there was, and leaves the destination untouched. *)
Theorem init_eof (filename : txt) (w : world)
  (Hex : dest_exists w = false) (Hshort : length (stdin w) < 4)
  (Hname : forall n rest, stdin w = n :: rest -> strip n <> []) :
  fst (init filename w) = Raised EOFError /\
  dest (snd (init filename w)) = dest w /\
  stdin (snd (init filename w)) = [].
Proof.
  unfold init, bind, path_exists, input, lift.
  rewrite Hex.
  destruct (stdin w) as [|n [|tr [|pr [|ar rest]]]] eqn:Hin;
    cbn [length] in Hshort; [cbn; auto| | | | lia];
    (destruct (name_of n) as [cn|e] eqn:Hn;
     [cbn; auto
     | exfalso; apply name_of_raised in Hn as [_ Hs];
       exact (Hname _ _ eq_refl Hs)]).
Qed.

Lemma init_eof_witness :
  fst (init (s2l "rocket.py") (fresh_world [s2l "rocket"; s2l "location"]))
    = Raised EOFError /\
  dest (snd (init (s2l "rocket.py") (fresh_world [s2l "rocket"; s2l "location"])))
    = dest (fresh_world [s2l "rocket"; s2l "location"]) /\
  stdin (snd (init (s2l "rocket.py") (fresh_world [s2l "rocket"; s2l "location"])))
    = [].
Proof.
  apply init_eof; [reflexivity | cbn; lia |].
  intros n rest H. injection H as <- _. discriminate.
Defined.

(** X10. When the destination cannot be opened, the run raises [OSError]
    after reading the four answers and printing the four prompts, and the
    destination is left as it was. *)
Theorem init_open_fails (filename n tr pr ar cn : txt) (rest : list txt)
  (w : world)
  (Hex : dest_exists w = false) (Hin : stdin w = n :: tr :: pr :: ar :: rest)
  (Hn : name_of n = Ok cn) (Ho : can_open w = false) :
  init filename w =
  (Raised OSError, {| dest_exists := false; stdin := rest;
                      stdout := stdout w ++ prompts; dest := dest w;
                      can_open := false; room := room w |}).
Proof.
  unfold init, bind, path_exists, input, lift, open_w.
  rewrite Hex, Hin. cbn -[template]. rewrite Hn. cbn -[template].
  rewrite Ho. rewrite <- !app_assoc. cbn -[template]. rewrite Hex.
  reflexivity.
Qed.

Lemma init_open_fails_witness :
  init (s2l "rocket.py")
    (set_stdin {| dest_exists := false; stdin := []; stdout := []; dest := None;
                  can_open := false; room := None |} rocket_answers) =
  (Raised OSError, {| dest_exists := false; stdin := []; stdout := prompts;
                      dest := None; can_open := false; room := None |}).
Proof.
  apply (init_open_fails (s2l "rocket.py") (s2l "rocket") (s2l "location stage")
           (s2l "launched docked") (s2l "launch") (s2l "Rocket") []);
    reflexivity.
Defined.


(** X12. For answers without a newline, the output has exactly
    16 + t + 3p + 6a non-empty lines, where t, p and a are the numbers of
    type, predicate and action tokens: one per type, three per predicate
    block, six per action block and sixteen fixed ones. *)
Theorem output_nonempty_lines (class_name tr pr ar : txt)
  (Hcn : has_nl class_name = false) (Htr : has_nl tr = false)
  (Hpr : has_nl pr = false) (Har : has_nl ar = false) :
  count_lines is_nonempty (rendered class_name tr pr ar) =
  16 + length (types_of tr) + 3 * length (predicates_of pr) +
  6 * length (actions_of ar).
Proof.
  assert (Hts := tokens_no_nl title tr (in_title_aux_nl false) Htr).
  assert (Hps := tokens_no_nl lower pr in_lower_nl Hpr).
  assert (Has := tokens_no_nl lower ar in_lower_nl Har).
  unfold rendered. rewrite count_template by (reflexivity || assumption).
  unfold template_lines. rewrite !filter_app, !length_app.
  rewrite length_filter_all with (l := map type_line _)
    by (intros x Hx; apply in_map_iff in Hx as (t & <- & _); reflexivity).
  rewrite (length_filter_concat_map _ predicate_lines 3) by reflexivity.
  rewrite (length_filter_concat_map _ action_lines 6) by reflexivity.
  rewrite !length_map. cbn. lia.
Qed.

Lemma output_nonempty_lines_witness :
  count_lines is_nonempty
    (rendered (s2l "Rocket") (s2l "location stage") (s2l "launched  docked")
       (s2l "launch")) = 16 + 2 + 3 * 3 + 6 * 1.
Proof. apply output_nonempty_lines; reflexivity. Defined.
